(** * Book recommendation system: the demo pages and the recommendation engine

    The first part embeds the two React pages of the frontend
    ([routes/demo.tsx], [routes/index.tsx]) as programs over an explicit
    component state, with the log of the state setters they call and of the
    HTTP requests they issue. *)

From stdpp Require Import gmap strings list fin_maps sorting.
From Stdlib Require Import Reals Lra QArith Qreals Ascii.

Open Scope string_scope.

(** JavaScript [number]s are only passed around by the pages, never
    computed with; they are read as real numbers. *)
Definition number : Type := R.

(** ** The demo page: [RouteComponent] of [routes/demo.tsx] *)

Module Demo.

(** [interface Book] *)
Record Book : Type := {
  product_id : number;
  title : string;
  authors : string;
  avg_rating : number;
  n_review : number;
  cover_link : string;
}.

(** The five [useState] cells of [RouteComponent]. The [error] cell has the
    type [string | null]. *)
Record State : Type := {
  userId : string;
  productId : string;
  books : list Book;
  loading : bool;
  error : option string;
}.

Definition initial : State :=
  {| userId := ""; productId := ""; books := []; loading := false;
     error := None |}.

(** What the page does that is visible from outside: calls to the state
    setters and calls to [axios.get]. *)
Inductive Event : Type :=
  | SetLoading (b : bool)
  | SetError (e : option string)
  | SetBooks (bs : list Book)
  | AxiosGet (url : string).

(** The promise returned by [axios.get<Book[]>] either resolves with
    [response.data] or rejects. *)
Inductive Response : Type :=
  | Resolved (data : list Book)
  | Rejected.

(** How a block of statements completes: normally with a value, by a
    [return] statement, or by a thrown exception (a rejected [await]). *)
Inductive Completion (A : Type) : Type :=
  | Normal (a : A)
  | Return
  | Throw.
Arguments Normal {A} a.
Arguments Return {A}.
Arguments Throw {A}.

(** A statement runs against the server it talks to, the component state and
    the log so far. *)
Record World : Type := {
  state : State;
  log : list Event;
}.

Definition Js (A : Type) : Type :=
  (string -> Response) -> World -> World * Completion A.

Definition pure {A} (a : A) : Js A := fun _ w => (w, Normal a).

Definition bind {A B} (m : Js A) (k : A -> Js B) : Js B :=
  fun http w =>
    match m http w with
    | (w', Normal a) => k a http w'
    | (w', Return) => (w', Return)
    | (w', Throw) => (w', Throw)
    end.

Notation "'let*' x ':=' m 'in' k" := (bind m (fun x => k))
  (at level 10, x name, m at level 100, k at level 200).
Notation "m ';;;' k" := (bind m (fun _ => k))
  (at level 100, k at level 200, right associativity).

(** [return;] *)
Definition js_return {A} : Js A := fun _ w => (w, Return).

(** [try { body } catch { handler }]: only a throw reaches the handler; a
    [return] in the body leaves the block. *)
Definition try_catch {A} (body handler : Js A) : Js A :=
  fun http w =>
    match body http w with
    | (w', Throw) => handler http w'
    | r => r
    end.

(** [try { body } finally { fin }]: [fin] runs however [body] completes, and
    the completion of [body] stands unless [fin] itself is abrupt. *)
Definition try_finally {A} (body : Js A) (fin : Js unit) : Js A :=
  fun http w =>
    match body http w with
    | (w', c) =>
        match fin http w' with
        | (w'', Normal _) => (w'', c)
        | (w'', Return) => (w'', Return)
        | (w'', Throw) => (w'', Throw)
        end
    end.

Definition emit (e : Event) (f : State -> State) : Js unit :=
  fun _ w => ({| state := f (state w); log := log w ++ [e] |}, Normal tt).

Definition setLoading (b : bool) : Js unit :=
  emit (SetLoading b)
    (fun s => {| userId := userId s; productId := productId s;
                 books := books s; loading := b; error := error s |}).

Definition setError (e : option string) : Js unit :=
  emit (SetError e)
    (fun s => {| userId := userId s; productId := productId s;
                 books := books s; loading := loading s; error := e |}).

Definition setBooks (bs : list Book) : Js unit :=
  emit (SetBooks bs)
    (fun s => {| userId := userId s; productId := productId s;
                 books := bs; loading := loading s; error := error s |}).

Definition read {A} (f : State -> A) : Js A :=
  fun _ w => (w, Normal (f (state w))).

(** [await axios.get<Book[]>(endpoint)], already projected to
    [response.data]. *)
Definition axios_get (endpoint : string) : Js (list Book) :=
  fun http w =>
    let w' := {| state := state w; log := log w ++ [AxiosGet endpoint] |} in
    match http endpoint with
    | Resolved data => (w', Normal data)
    | Rejected => (w', Throw)
    end.

(** A string is truthy exactly when it is not empty. *)
Definition truthy (s : string) : bool :=
  match s with
  | EmptyString => false
  | String _ _ => true
  end.

(** The ternary chain that builds [endpoint]. *)
Definition endpoint (userId productId : string) : string :=
  if truthy userId && truthy productId then
    "api/hybrid-recommendations?user_id=" +:+ userId +:+ "&product_id="
      +:+ productId
  else if truthy userId then
    "api/cf-recommendations?user_id=" +:+ userId
  else
    "api/cbf-recommendations?product_id=" +:+ productId.

Definition fetchRecommendations : Js unit :=
  setLoading true ;;;
  setError None ;;;
  try_finally
    (try_catch
       (let* userId := read userId in
        let* productId := read productId in
        (if negb (truthy userId) && negb (truthy productId) then
           setError (Some "Please provide at least a User ID or Book ID.") ;;;
           js_return
         else pure tt) ;;;
        try_catch
          (let* data := axios_get (endpoint userId productId) in
           setBooks data)
          (setError (Some "Failed to fetch recommendations.")))
       (setError (Some "Failed to fetch recommendations.")))
    (setLoading false).

(** One click on the button, from component state [s]. *)
Definition click (http : string -> Response) (s : State) : World :=
  fst (fetchRecommendations http {| state := s; log := [] |}).

(** The requests among the logged events, in order. *)
Definition requests (l : list Event) : list string :=
  omap (fun e => match e with AxiosGet url => Some url | _ => None end) l.

End Demo.

(** ** The landing page: [Index] of [routes/index.tsx] *)

Module IndexPage.

(** [interface TrendingBook] *)
Record TrendingBook : Type := {
  product_id : number;
  title : string;
  authors : string;
  avg_rating : number;
  n_review : number;
  cover_link : string;
  trending_score : number;
}.

Inductive Event : Type :=
  | Fetch (url : string)
  | SetBooks (bs : list TrendingBook)
  | ConsoleError.

(** [fetch(..).then(res => res.json())] resolves with the parsed body or
    rejects. *)
Inductive Response : Type :=
  | Resolved (data : list TrendingBook)
  | Rejected.

(** The effect run once after the first render: the promise chain
    [fetch.then.then.catch]; returns the [books] cell and the log. *)
Definition mount_effect (http : string -> Response)
    (books : list TrendingBook) : list TrendingBook * list Event :=
  let url := "/api/trending-books" in
  match http url with
  | Resolved data => (data, [Fetch url; SetBooks data])
  | Rejected => (books, [Fetch url; ConsoleError])
  end.

Definition requests (l : list Event) : list string :=
  omap (fun e => match e with Fetch url => Some url | _ => None end) l.

End IndexPage.

(** ** The recommendation engine

    The backend that serves the four endpoints is not part of the frontend
    sources; the engine below follows the written specification of its
    components (similarity index, CF, CBF, hybrid combiner, trending
    ranker). *)

#[global] Instance Rlt_decision (x y : R) : Decision (x < y)%R := Rlt_dec x y.
#[global] Instance Req_decision : EqDecision R := Req_dec_T.

Module Engine.

Local Open Scope R_scope.

(** *** Data model *)

(** Modelled from the spec: the error taxonomy of the engine ([NotFound],
    [EmptyCorpus]) and the [EmptyIndex] signal of the similarity index; a
    cold start is not an error. *)
Inductive Error : Type :=
  | NotFound
  | EmptyIndex
  | EmptyCorpus.

(** Modelled from the spec: a Rating is (user_id, item_id, score,
    timestamp). *)
Record Rating : Type := {
  rating_user : nat;
  rating_item : nat;
  rating_score : Q;
  rating_time : Z;
}.

(** Modelled from the spec: the descriptive attributes of a catalog Item;
    its item_id is the key under which the catalog holds it. *)
Record Item : Type := {
  item_title : string;
  item_authors : string;
  item_average_rating : Q;
  item_review_count : nat;
  item_tokens : list string;
  item_cover : string;
}.

(** Modelled from the spec: the snapshot a serving generation reads: the
    sparse RatingMatrix from (user_id, item_id) to score, the time of the
    most recent rating of each item, the catalog, and the time the snapshot
    was taken. *)
Record Snapshot : Type := {
  matrix : gmap (nat * nat) Q;
  last_rated : gmap nat Z;
  catalog : gmap nat Item;
  now : Z;
}.

(** Modelled from the spec: the configurable constants: the number N of
    neighbours kept, the minimum overlap of shared rated items, and the
    half-life of the recency weight. *)
Record Config : Type := {
  max_neighbours : nat;
  min_overlap : nat;
  half_life : Z;
}.

(** Modelled from the spec: the example values N = 20, minimum overlap 2
    and a half-life of 30 days. *)
Definition default_config : Config :=
  {| max_neighbours := 20; min_overlap := 2; half_life := 30 |}.

(** Modelled from the spec: ratings are unique per (user_id, item_id) and a
    later write overwrites an earlier one. *)
Definition record_rating (m : gmap (nat * nat) Q) (r : Rating)
    : gmap (nat * nat) Q :=
  <[(rating_user r, rating_item r) := rating_score r]> m.

(** Modelled from the spec: the time of the most recent rating of each
    item, which the recency weight of the trending ranker reads. *)
Definition record_time (m : gmap nat Z) (r : Rating) : gmap nat Z :=
  <[rating_item r :=
      match m !! rating_item r with
      | Some t => Z.max t (rating_time r)
      | None => rating_time r
      end]> m.

(** Modelled from the spec: the snapshot is built wholesale from all Ratings
    and the catalog; nothing loaded is the EmptyCorpus condition. *)
Definition load (ratings : list Rating) (items : gmap nat Item) (t : Z)
    : Error + Snapshot :=
  if bool_decide (ratings = [] ∨ size items = 0%nat) then inl EmptyCorpus
  else inr {| matrix := foldl record_rating ∅ ratings;
              last_rated := foldl record_time ∅ ratings;
              catalog := items;
              now := t |}.

(** Modelled from the spec: each result item carries item_id, title,
    authors, average_rating, review_count, cover_reference and score, and
    for trending the raw trending_score. *)
Record ResultItem : Type := {
  item_id : nat;
  title : string;
  authors : string;
  average_rating : Q;
  review_count : nat;
  cover_reference : string;
  score : R;
  trending_score : option R;
}.

(** Modelled from the spec: a RecommendationResult is the ordered sequence
    of scored items, with the fallback and partial flags of the cold-start
    and degenerate cases. *)
Record RecommendationResult : Type := {
  items : list ResultItem;
  fallback : bool;
  partial : bool;
}.

(** Modelled from the spec: a candidate (item, score) pair inside an engine,
    before it is presented as a result item. *)
Record Scored : Type := {
  sc_id : nat;
  sc_item : Item;
  sc_score : R;
}.

(** *** Ranking *)

(** Modelled from the spec: the secondary key of the tie-break of CF and
    trending, the review_count. *)
Definition by_reviews (c : Scored) : R := INR (item_review_count (sc_item c)).

(** Modelled from the spec: the secondary key of the tie-break of CBF and
    hybrid, the average_rating. *)
Definition by_rating (c : Scored) : R := Q2R (item_average_rating (sc_item c)).

(** Modelled from the spec: the ranking order shared by the engines:
    descending score, ties broken by the higher secondary key, then by
    item_id ascending. *)
Definition precedes (key : Scored -> R) (a b : Scored) : bool :=
  if decide (sc_score b < sc_score a) then true
  else if decide (sc_score a < sc_score b) then false
  else if decide (key b < key a) then true
  else if decide (key a < key b) then false
  else bool_decide (sc_id a ≤ sc_id b)%nat.

(** Modelled from the spec: sorting by that order, by insertion. *)
Fixpoint place {A : Type} (before : A -> A -> bool) (x : A) (l : list A)
    : list A :=
  match l with
  | [] => [x]
  | y :: l' => if before x y then x :: y :: l' else y :: place before x l'
  end.

(** Modelled from the spec: the descending sort of a candidate list. *)
Definition sort_by {A : Type} (before : A -> A -> bool) (l : list A)
    : list A :=
  foldr (place before) [] l.

(** Modelled from the spec: every engine returns its ranking cut at the
    cap K. *)
Definition rank (key : Scored -> R) (K : nat) (l : list Scored)
    : list Scored :=
  take K (sort_by (precedes key) l).

(** Modelled from the spec: the fields of a result item are the catalog
    attributes of the item and its score. *)
Definition present (trending : bool) (c : Scored) : ResultItem :=
  {| item_id := sc_id c;
     title := item_title (sc_item c);
     authors := item_authors (sc_item c);
     average_rating := item_average_rating (sc_item c);
     review_count := item_review_count (sc_item c);
     cover_reference := item_cover (sc_item c);
     score := sc_score c;
     trending_score := if trending then Some (sc_score c) else None |}.

(** *** Similarity index *)

(** Modelled from the spec: the users that the rating matrix refers to. *)
Definition matrix_users (s : Snapshot) : list nat :=
  remove_dups ((fun e => fst (fst e)) <$> map_to_list (matrix s)).

(** Modelled from the spec: the items that the rating matrix refers to,
    the dimensions of a rating vector. *)
Definition matrix_items (s : Snapshot) : list nat :=
  remove_dups ((fun e => snd (fst e)) <$> map_to_list (matrix s)).

(** Modelled from the spec: a user is known when the rating matrix holds a
    rating of it. *)
Definition known_user (s : Snapshot) (u : nat) : bool :=
  bool_decide (u ∈ matrix_users s).

(** Modelled from the spec: the pairwise rating overlap of two users, the
    intersection of their non-missing dimensions, as pairs of scores. *)
Definition co_rated (s : Snapshot) (a b : nat) : list (R * R) :=
  omap (fun i =>
          match matrix s !! (a, i), matrix s !! (b, i) with
          | Some x, Some y => Some (Q2R x, Q2R y)
          | _, _ => None
          end)
       (matrix_items s).

(** Modelled from the spec: the dot product a.b of two vectors given as a
    list of paired coordinates. *)
Definition dot (l : list (R * R)) : R :=
  foldr (fun p acc => fst p * snd p + acc) 0 l.

(** Modelled from the spec: the Euclidean norm |a|. *)
Definition norm (v : list R) : R :=
  sqrt (foldr (fun x acc => x * x + acc) 0 v).

(** Modelled from the spec: cosine similarity (a.b)/(|a||b|), defined as 0
    when either vector has zero norm. *)
Definition cosine (l : list (R * R)) : R :=
  let na := norm (fst <$> l) in
  let nb := norm (snd <$> l) in
  if decide (na = 0 \/ nb = 0) then 0 else dot l / (na * nb).

(** Modelled from the spec: user-user similarity, computed over the rating
    overlap only; a pair with fewer shared rated items than the minimum
    overlap has similarity 0. *)
Definition user_sim (cfg : Config) (s : Snapshot) (a b : nat) : R :=
  let shared := co_rated s a b in
  if (length shared <? min_overlap cfg)%nat then 0 else cosine shared.

(** Modelled from the spec: the failures of the index: an empty corpus
    signals EmptyIndex, an unknown entity NotFound. *)
Definition user_similarity (cfg : Config) (s : Snapshot) (a b : nat)
    : Error + R :=
  if bool_decide (size (matrix s) = 0%nat) then inl EmptyIndex
  else if known_user s a && known_user s b then inr (user_sim cfg s a b)
  else inl NotFound.

(** Modelled from the spec: the feature vector of an item is the bag of
    words of its content tokens, over the vocabulary of the catalog. *)
Definition vocabulary (s : Snapshot) : list string :=
  remove_dups (mjoin ((fun e => item_tokens (snd e)) <$> map_to_list (catalog s))).

(** Modelled from the spec: the weight of a token in the bag of words of an
    item, its number of occurrences. *)
Definition term_count (t : string) (it : Item) : R :=
  INR (length (filter (fun w => w = t) (item_tokens it))).

(** Modelled from the spec: the feature vectors of two items, coordinate by
    coordinate. *)
Definition features (s : Snapshot) (a b : Item) : list (R * R) :=
  (fun t => (term_count t a, term_count t b)) <$> vocabulary s.

(** Modelled from the spec: item-item similarity is the cosine of the two
    feature vectors. *)
Definition item_sim (s : Snapshot) (a b : Item) : R :=
  cosine (features s a b).


(** *** Trending ranker *)

(** Modelled from the spec: the recency weight decays exponentially with the
    time since the most recent rating of the item, halving every half-life;
    an item that was never rated has no recent activity. *)
Definition recency_weight (cfg : Config) (s : Snapshot) (i : nat) : R :=
  match last_rated s !! i with
  | Some t => Rpower 2 (- (IZR (now s - t) / IZR (half_life cfg)))
  | None => 0
  end.

(** Modelled from the spec: trending_score(item) = average_rating *
    log(1 + review_count) * recency_weight. *)
Definition trending_score_of (cfg : Config) (s : Snapshot) (i : nat)
    (it : Item) : R :=
  Q2R (item_average_rating it) * ln (1 + INR (item_review_count it))
  * recency_weight cfg s i.

(** Modelled from the spec: the trending ranker scores the whole
    catalog. *)
Definition trending_scores (cfg : Config) (s : Snapshot) : list Scored :=
  (fun e => {| sc_id := fst e; sc_item := snd e;
               sc_score := trending_score_of cfg s (fst e) (snd e) |})
    <$> map_to_list (catalog s).

(** Modelled from the spec: trending(k) ranks the whole catalog by
    descending trending_score, ties broken by review_count, then item_id
    ascending. *)
Definition trending (cfg : Config) (s : Snapshot) (K : nat)
    : Error + RecommendationResult :=
  inr {| items := present true <$> rank by_reviews K (trending_scores cfg s);
         fallback := false; partial := false |}.

(** *** CF engine *)

(** Modelled from the spec: the other users whose similarity to [u] the
    index serves and finds above 0. *)
Definition similar_users (cfg : Config) (s : Snapshot) (u : nat)
    : list (nat * R) :=
  omap (fun n =>
          match user_similarity cfg s u n with
          | inr w => if decide (0 < w) then Some (n, w) else None
          | inl _ => None
          end)
       (filter (fun n => n ≠ u) (matrix_users s)).

(** Modelled from the spec: neighbours are taken by descending similarity;
    equal similarities are ordered by user_id to keep the choice
    deterministic. *)
Definition closer (a b : nat * R) : bool :=
  if decide (snd b < snd a) then true
  else if decide (snd a < snd b) then false
  else bool_decide (fst a ≤ fst b)%nat.

(** Modelled from the spec: the top-N similar users, excluding self, with
    similarity above 0. *)
Definition neighbours (cfg : Config) (s : Snapshot) (u : nat)
    : list (nat * R) :=
  take (max_neighbours cfg) (sort_by closer (similar_users cfg s u)).

(** Modelled from the spec: the (similarity, rating) pairs of the
    neighbours who rated item [i]. *)
Definition contributions (s : Snapshot) (nbrs : list (nat * R)) (i : nat)
    : list (R * R) :=
  omap (fun n => (fun r => (snd n, Q2R r)) <$> matrix s !! (fst n, i)) nbrs.

(** Modelled from the spec: predicted(item) = sum of sim(u,n) * rating(n,item)
    over the sum of |sim(u,n)|, over the neighbours n who rated the item; an
    item with no contributing neighbour has no prediction. *)
Definition predicted (s : Snapshot) (nbrs : list (nat * R)) (i : nat)
    : option R :=
  match contributions s nbrs i with
  | [] => None
  | c => Some (dot c / foldr (fun p acc => Rabs (fst p) + acc) 0 c)
  end.

(** Modelled from the spec: the full candidate scoring of CF: the catalog
    items the target user has not rated and some neighbour has. *)
Definition cf_scores (cfg : Config) (s : Snapshot) (u : nat) : list Scored :=
  omap (fun e =>
          match matrix s !! (u, fst e) with
          | Some _ => None
          | None =>
              (fun p => {| sc_id := fst e; sc_item := snd e; sc_score := p |})
                <$> predicted s (neighbours cfg s u) (fst e)
          end)
       (map_to_list (catalog s)).

(** Modelled from the spec: an unknown user, or a user with zero neighbours
    above the similarity threshold, is a cold start. *)
Definition cold_start (cfg : Config) (s : Snapshot) (u : nat) : bool :=
  negb (known_user s u) || bool_decide (neighbours cfg s u = []).

(** Modelled from the spec: cf_recommend(user_id, k): descending predicted
    score, ties broken by higher review_count, then item_id ascending; a
    cold start falls back to the Trending Ranker output, tagged as a
    fallback result. *)
Definition cf_recommend (cfg : Config) (s : Snapshot) (u : nat) (K : nat)
    : Error + RecommendationResult :=
  if cold_start cfg s u then
    match trending cfg s K with
    | inr t => inr {| items := items t; fallback := true;
                      partial := partial t |}
    | inl e => inl e
    end
  else
    inr {| items := present false <$> rank by_reviews K (cf_scores cfg s u);
           fallback := false; partial := false |}.

(** *** CBF engine *)

(** Modelled from the spec: the similarity of the query item to every other
    item of the catalog, the query item itself excluded. *)
Definition cbf_scores (s : Snapshot) (i : nat) (it : Item) : list Scored :=
  (fun e => {| sc_id := fst e; sc_item := snd e;
               sc_score := item_sim s it (snd e) |})
    <$> filter (fun e => fst e ≠ i) (map_to_list (catalog s)).

(** Modelled from the spec: cbf_recommend(item_id, k): descending
    similarity, ties broken by higher average_rating, then item_id
    ascending; an unknown item_id is a NotFound error. *)
Definition cbf_recommend (cfg : Config) (s : Snapshot) (i : nat) (K : nat)
    : Error + RecommendationResult :=
  match catalog s !! i with
  | None => inl NotFound
  | Some it =>
      inr {| items := present false <$> rank by_rating K (cbf_scores s i it);
             fallback := false; partial := false |}
  end.

(** *** Hybrid combiner *)

(** Modelled from the spec: the minimum of a score list, for the min-max
    scaling. *)
Definition lowest (x : R) (l : list R) : R := foldr Rmin x l.

(** Modelled from the spec: the maximum of a score list, for the min-max
    scaling. *)
Definition highest (x : R) (l : list R) : R := foldr Rmax x l.

(** Modelled from the spec: min-max scaling of one score list to [0,1]; an
    empty or constant list contributes 0 for all items, and an item missing
    from the list receives 0. *)
Definition normalized (l : list Scored) (i : nat) : R :=
  match find (fun c => bool_decide (sc_id c = i)) l, l with
  | Some c, c0 :: l' =>
      let lo := lowest (sc_score c0) (sc_score <$> l') in
      let hi := highest (sc_score c0) (sc_score <$> l') in
      if decide (lo < hi) then (sc_score c - lo) / (hi - lo) else 0
  | _, _ => 0
  end.

(** Modelled from the spec: an item is a candidate of a score list when
    the list scores it. *)
Definition candidate (l : list Scored) (i : nat) : bool :=
  bool_decide (i ∈ sc_id <$> l).

(** Modelled from the spec: combined score = alpha * normalized_CF(item) +
    (1 - alpha) * normalized_CBF(item), over the union of the candidate
    items of both lists. *)
Definition hybrid_scores (alpha : R) (cf cbf : list Scored) (s : Snapshot)
    : list Scored :=
  omap (fun e =>
          if candidate cf (fst e) || candidate cbf (fst e) then
            Some {| sc_id := fst e; sc_item := snd e;
                    sc_score := alpha * normalized cf (fst e)
                                + (1 - alpha) * normalized cbf (fst e) |}
          else None)
       (map_to_list (catalog s)).

(** Modelled from the spec: hybrid_recommend(user_id, item_id, k, alpha):
    descending combined score, ties broken by average_rating, then item_id
    ascending. If CF falls back the combiner uses CBF alone (alpha
    effectively 0) and marks the result as partial; symmetrically an unknown
    item_id with a valid user uses CF alone; with neither there is nothing
    to fall back on and the item is NotFound. *)
Definition hybrid_recommend (cfg : Config) (s : Snapshot) (u i : nat)
    (K : nat) (alpha : R) : Error + RecommendationResult :=
  match catalog s !! i, cold_start cfg s u with
  | None, true => inl NotFound
  | None, false =>
      inr {| items := present false
                        <$> rank by_rating K
                              (hybrid_scores 1 (cf_scores cfg s u) [] s);
             fallback := false; partial := true |}
  | Some it, true =>
      inr {| items := present false
                        <$> rank by_rating K
                              (hybrid_scores 0 [] (cbf_scores s i it) s);
             fallback := false; partial := true |}
  | Some it, false =>
      inr {| items := present false
                        <$> rank by_rating K
                              (hybrid_scores alpha (cf_scores cfg s u)
                                 (cbf_scores s i it) s);
             fallback := false; partial := false |}
  end.

(** *** Reading results *)

(** The items of a response; an error carries none. *)
Definition result_items (r : Error + RecommendationResult)
    : list ResultItem :=
  match r with
  | inr res => items res
  | inl _ => []
  end.







(** The feature vector of an item. *)
Definition item_vector (s : Snapshot) (a : Item) : list R :=
  (fun t => term_count t a) <$> vocabulary s.

(** A vector paired with itself. *)
Definition twice (v : list R) : list (R * R) := (fun x => (x, x)) <$> v.




(** Modelled from the spec: a result item on the wire, as the demo page
    declares it. *)
Definition as_book (x : ResultItem) : Demo.Book :=
  {| Demo.product_id := INR (item_id x);
     Demo.title := title x;
     Demo.authors := authors x;
     Demo.avg_rating := Q2R (average_rating x);
     Demo.n_review := INR (review_count x);
     Demo.cover_link := cover_reference x |}.


(** *** The properties as they are worded *)




End Engine.

(** ** Reference values *)

Module Samples.

(** The routing as the overview words it: both identifiers go to the hybrid
    endpoint, a user only to CF, an item only to CBF, neither to trending. *)
Definition routed_as_worded (userId productId : string) : string :=
  if Demo.truthy userId && Demo.truthy productId then
    "api/hybrid-recommendations?user_id=" +:+ userId +:+ "&product_id="
      +:+ productId
  else if Demo.truthy userId then
    "api/cf-recommendations?user_id=" +:+ userId
  else if Demo.truthy productId then
    "api/cbf-recommendations?product_id=" +:+ productId
  else "/api/trending-books".

Definition a_book : Demo.Book :=
  {| Demo.product_id := 1%R; Demo.title := "Dune";
     Demo.authors := "Frank Herbert"; Demo.avg_rating := 4%R;
     Demo.n_review := 100%R; Demo.cover_link := "dune.jpg" |}.

(** A page showing one recommendation, with a user id typed in. *)
Definition showing : Demo.State :=
  {| Demo.userId := "7"; Demo.productId := ""; Demo.books := [a_book];
     Demo.loading := false; Demo.error := None |}.

Definition server_down : string -> Demo.Response := fun _ => Demo.Rejected.

(** The rating matrix of the cold-start example:
    {(u1,i1):5, (u1,i2):3, (u2,i1):4, (u2,i3):5}. *)
Definition sparse_matrix : gmap (nat * nat) Q :=
  list_to_map [((1, 1), 5%Q); ((1, 2), 3%Q); ((2, 1), 4%Q); ((2, 3), 5%Q)]%nat.

Definition sparse : Engine.Snapshot :=
  {| Engine.matrix := sparse_matrix; Engine.last_rated := ∅;
     Engine.catalog := ∅; Engine.now := 0%Z |}.


Definition book (t a : string) (avg : Q) (n : nat) (tokens : list string)
    : Engine.Item :=
  {| Engine.item_title := t; Engine.item_authors := a;
     Engine.item_average_rating := avg; Engine.item_review_count := n;
     Engine.item_tokens := tokens; Engine.item_cover := t +:+ ".jpg" |}.

Definition dune : Engine.Item :=
  book "Dune" "Frank Herbert" 5%Q 50 ["dune"; "frank"; "herbert"].
Definition messiah : Engine.Item :=
  book "Dune Messiah" "Frank Herbert" 5%Q 20
    ["dune"; "messiah"; "frank"; "herbert"].
Definition emma : Engine.Item :=
  book "Emma" "Jane Austen" 3%Q 10 ["emma"; "jane"; "austen"].
Definition persuasion : Engine.Item :=
  book "Persuasion" "Jane Austen" 4%Q 5 ["persuasion"; "jane"; "austen"].

(** A reading club of two users: user 1 rated items 1 and 2; user 2 rated
    them the same way and also rated items 3 and 4, both with 4. *)
Definition club : Engine.Snapshot :=
  {| Engine.matrix :=
       list_to_map [((1, 1), 5%Q); ((1, 2), 3%Q); ((2, 1), 5%Q);
                    ((2, 2), 3%Q); ((2, 3), 4%Q); ((2, 4), 4%Q)]%nat;
     Engine.last_rated :=
       list_to_map [(1, 100%Z); (2, 100%Z); (3, 100%Z); (4, 100%Z)]%nat;
     Engine.catalog :=
       list_to_map [(1, dune); (2, messiah); (3, emma); (4, persuasion)]%nat;
     Engine.now := 101%Z |}.

End Samples.

(** ** The demo page as the user drives it

    The rest of [RouteComponent]: the two controlled inputs, the button, and
    what is rendered. A press of the button starts [fetchRecommendations];
    the function is suspended at its [await] and resumed when the answer
    arrives, and in between the user may type or press again. *)

Module DemoUI.

Import Demo.

(** [onChange={(e) => setUserId(e.target.value)}] *)
Definition setUserId (v : string) (s : State) : State :=
  {| userId := v; productId := productId s; books := books s;
     loading := loading s; error := error s |}.

(** [onChange={(e) => setProductId(e.target.value)}] *)
Definition setProductId (v : string) (s : State) : State :=
  {| userId := userId s; productId := v; books := books s;
     loading := loading s; error := error s |}.

(** What the user can do: type in one of the inputs, press the button. *)
Inductive Action : Type :=
  | TypeUser (v : string)
  | TypeProduct (v : string)
  | PressButton.

(** Statements that do not talk to the server. *)
Definition exec (m : Js unit) (w : World) : World :=
  fst (m (fun _ => Rejected) w).

(** [fetchRecommendations] from its first statement to the [await]: either
    the early [return] through the [finally] block, with no request, or the
    call of [axios.get], whose endpoint is then awaited. *)
Definition begin_click (w : World) : World * option string :=
  let w1 := exec (setLoading true ;;; setError None) w in
  let u := userId (state w1) in
  let p := productId (state w1) in
  if negb (truthy u) && negb (truthy p) then
    (exec (setError (Some "Please provide at least a User ID or Book ID.") ;;;
           setLoading false) w1,
     None)
  else
    ({| state := state w1; log := log w1 ++ [AxiosGet (endpoint u p)] |},
     Some (endpoint u p)).

(** [fetchRecommendations] from the [await] to its end: [setBooks] on a
    resolved promise, the inner [catch] on a rejected one, then the
    [finally] block. *)
Definition finish_click (r : Response) (w : World) : World :=
  match r with
  | Resolved data => exec (setBooks data ;;; setLoading false) w
  | Rejected =>
      exec (setError (Some "Failed to fetch recommendations.") ;;;
            setLoading false) w
  end.

(** The page between two events: its state and log, and the endpoints of
    the requests that are still awaited, oldest first. *)
Record Page : Type := {
  world : World;
  in_flight : list string;
}.

(** A freshly opened page. *)
Definition opened : Page :=
  {| world := {| state := initial; log := [] |}; in_flight := [] |}.

(** An event is an action of the user or the arrival of the answer to the
    [k]-th request in flight; answers may arrive in any order. *)
Inductive Step : Type :=
  | User (a : Action)
  | Answer (k : nat) (r : Response).

Definition step (p : Page) (t : Step) : Page :=
  match t with
  | User (TypeUser v) =>
      {| world := {| state := setUserId v (state (world p));
                     log := log (world p) |};
         in_flight := in_flight p |}
  | User (TypeProduct v) =>
      {| world := {| state := setProductId v (state (world p));
                     log := log (world p) |};
         in_flight := in_flight p |}
  | User PressButton =>
      let r := begin_click (world p) in
      {| world := fst r;
         in_flight := in_flight p ++ match snd r with
                                     | Some url => [url]
                                     | None => []
                                     end |}
  | Answer k r =>
      match in_flight p !! k with
      | Some _ => {| world := finish_click r (world p);
                     in_flight := delete k (in_flight p) |}
      | None => p
      end
  end.

Definition run (p : Page) (ts : list Step) : Page := foldl step p ts.

(** An event that is the arrival of a resolved answer. *)
Definition brings_books (t : Step) : bool :=
  match t with
  | Answer _ (Resolved _) => true
  | _ => false
  end.

(** A request that names at least one identifier. *)
Definition names_an_id (url : string) : Prop :=
  exists u p, truthy u || truthy p = true /\ url = endpoint u p.

(** A string without the character [c]. *)
Fixpoint free_of (c : Ascii.ascii) (s : string) : bool :=
  match s with
  | EmptyString => true
  | String d r => negb (Ascii.eqb c d) && free_of c r
  end.

(** What [RouteComponent] returns, element by element. *)
Inductive Element : Type :=
  | Heading (text : string)
  | TextInput (value placeholder : string)
  | Button (label : string)
  | Para (className : option string) (text : string)
  | Card (key : number) (book : Book).

Definition render (s : State) : list Element :=
  [Heading "Book Recommendations";
   TextInput (userId s) "Enter User ID";
   TextInput (productId s) "Enter Book ID";
   Button "Get Recommendations"]
  ++ (if loading s then [Para None "Loading..."] else [])
  ++ match error s with
     | Some e => if truthy e then [Para (Some "text-red-500") e] else []
     | None => []
     end
  ++ [Heading "Recommended Books"]
  ++ ((fun b => Card (product_id b) b) <$> books s).

(** The messages shown in red. *)
Definition alerts (v : list Element) : list string :=
  omap (fun e => match e with
                 | Para (Some "text-red-500") t => Some t
                 | _ => None
                 end) v.

(** The books of the cards shown, in order. *)
Definition cards (v : list Element) : list Book :=
  omap (fun e => match e with Card _ b => Some b | _ => None end) v.

Definition shows_loading (v : list Element) : Prop :=
  Para None "Loading..." ∈ v.

End DemoUI.

(** ** What the landing page shows: [Index] and [BookCard] *)

Module LandingUI.

Import IndexPage.

(** What [BookCard] puts on the screen: the image with its source and
    alternative text, the title, the line of the authors and the rating
    behind the star. *)
Record CardView : Type := {
  img_src : string;
  img_alt : string;
  heading : string;
  byline : string;
  stars : number;
}.

Definition BookCard (book : TrendingBook) : CardView :=
  {| img_src := cover_link book;
     img_alt := title book;
     heading := title book;
     byline := "by " +:+ authors book;
     stars := avg_rating book |}.

(** What [Index] returns: the heading and one keyed card per book. *)
Inductive Element : Type :=
  | Heading (text : string)
  | Card (key : number) (view : CardView).

Definition render (books : list TrendingBook) : list Element :=
  Heading "Trending Books"
  :: ((fun book => Card (product_id book) (BookCard book)) <$> books).

(** The cards of a page, without the heading. *)
Definition cards (v : list Element) : list (number * CardView) :=
  omap (fun e => match e with
                 | Card k c => Some (k, c)
                 | Heading _ => None
                 end) v.

End LandingUI.

(** ** Scenes on the demo page *)

Module Scenes.

Import Demo DemoUI.

Definition other_book : Book :=
  {| product_id := 2%R; title := "Emma"; authors := "Jane Austen";
     avg_rating := 3%R; n_review := 10%R; cover_link := "emma.jpg" |}.

(** User 7 is typed and the button pressed. *)
Definition waiting : Page := run opened [User (TypeUser "7"); User PressButton].

(** The button is pressed for user 7, then for user 8, before any answer. *)
Definition two_in_flight : Page :=
  run opened [User (TypeUser "7"); User PressButton;
              User (TypeUser "8"); User PressButton].

(** The answer for user 8 has arrived, the one for user 7 has not. *)
Definition newer_answered : Page :=
  step two_in_flight (Answer 1 (Resolved [other_book])).

End Scenes.

(** * Properties *)

(** ** The demo page *)

Section DemoPage.

Import Demo.

Variable http : string -> Response.

Ltac run_click :=
  unfold click, fetchRecommendations, bind, try_finally, try_catch,
    setLoading, setError, setBooks, emit, read, axios_get, js_return, pure;
  cbn.

(** The whole effect of one click, case by case. *)
Lemma click_unfold (s : State) :
  click http s =
    let base := [SetLoading true; SetError None] in
    let st books error :=
      {| userId := userId s; productId := productId s; books := books;
         loading := false; error := error |} in
    if truthy (userId s) || truthy (productId s) then
      let url := endpoint (userId s) (productId s) in
      match http url with
      | Resolved data =>
          {| state := st data None;
             log := base ++ [AxiosGet url; SetBooks data; SetLoading false] |}
      | Rejected =>
          {| state := st (books s) (Some "Failed to fetch recommendations.");
             log := base ++ [AxiosGet url;
                             SetError (Some "Failed to fetch recommendations.");
                             SetLoading false] |}
      end
    else
      {| state := st (books s)
                    (Some "Please provide at least a User ID or Book ID.");
         log := base ++ [SetError
                           (Some "Please provide at least a User ID or Book ID.");
                         SetLoading false] |}.
Proof.
  destruct s as [u p bs l e]. run_click.
  destruct u as [|c u]; destruct p as [|d p]; cbn; try reflexivity;
    match goal with |- context [http ?x] => destruct (http x) end;
    reflexivity.
Qed.

(** The function never ends in an unhandled rejection. *)
Lemma click_completes (w : World) :
  snd (fetchRecommendations http w) ≠ Throw.
Proof.
  destruct w as [[u p bs l e] lg]. run_click.
  destruct u as [|c u]; destruct p as [|d p]; cbn; try discriminate;
    match goal with |- context [http ?x] => destruct (http x) end;
    discriminate.
Qed.

(** C1 (as amended): on the demo page a click with both identifiers requests
    the hybrid endpoint, with a user identifier only the CF endpoint, with an
    item identifier only the CBF endpoint, and with neither it sends no
    request at all and reports the validation message; the trending endpoint
    is requested by the landing page, which carries no identifier. *)
Theorem demo_routing (s : State) :
  requests (log (click http s)) =
    (if truthy (userId s) && truthy (productId s) then
       ["api/hybrid-recommendations?user_id=" +:+ userId s
          +:+ "&product_id=" +:+ productId s]
     else if truthy (userId s) then
       ["api/cf-recommendations?user_id=" +:+ userId s]
     else if truthy (productId s) then
       ["api/cbf-recommendations?product_id=" +:+ productId s]
     else [])
  /\ (if truthy (userId s) || truthy (productId s) then True
      else error (state (click http s))
           = Some "Please provide at least a User ID or Book ID.")
  /\ (forall (srv : string -> IndexPage.Response) bs,
        IndexPage.requests (snd (IndexPage.mount_effect srv bs))
        = ["/api/trending-books"]).
Proof.
  rewrite click_unfold. split; [|split].
  - destruct s as [u p bs l e]; cbn.
    destruct u as [|c u]; destruct p as [|d p]; cbn; try reflexivity;
      match goal with |- context [http ?x] => destruct (http x) end;
      reflexivity.
  - destruct (truthy (userId s) || truthy (productId s)); [exact I|].
    reflexivity.
  - intros srv bs. unfold IndexPage.mount_effect.
    destruct (srv _); reflexivity.
Qed.

(** C9: when the request is rejected, the error message becomes
    'Failed to fetch recommendations.' and the books shown stay as they
    were: [setBooks] is not called. *)
Theorem failed_fetch_keeps_books (s : State) :
  truthy (userId s) || truthy (productId s) = true ->
  http (endpoint (userId s) (productId s)) = Rejected ->
  error (state (click http s)) = Some "Failed to fetch recommendations."
  /\ books (state (click http s)) = books s
  /\ (forall bs, SetBooks bs ∉ log (click http s)).
Proof.
  intros Hin Hrej. rewrite click_unfold. cbn zeta.
  rewrite Hin, Hrej. cbn. repeat split.
  intros bs Hbs. repeat (apply elem_of_cons in Hbs as [Hbs|Hbs]; [discriminate|]).
  by apply elem_of_nil in Hbs.
Qed.

(** C10: every click first sets [loading] to true and last sets it back to
    false, with no other write to [loading] in between, whether the request
    succeeds, is rejected, or is never sent because both identifiers are
    missing; the function itself completes without a pending exception. *)
Theorem loading_bracket (s : State) :
  (exists mid,
      log (click http s) = SetLoading true :: mid ++ [SetLoading false]
      /\ Forall (fun e => forall b, e ≠ SetLoading b) mid)
  /\ loading (state (click http s)) = false
  /\ requests (log (click http s))
     = (if truthy (userId s) || truthy (productId s)
        then [endpoint (userId s) (productId s)] else [])
  /\ snd (fetchRecommendations http {| state := s; log := [] |}) ≠ Throw.
Proof.
  split; [|split; [|split]].
  - rewrite click_unfold. cbn zeta.
    destruct (truthy (userId s) || truthy (productId s)).
    + destruct (http _).
      * eexists [_; _; _]. split; [reflexivity|].
        repeat constructor; discriminate.
      * eexists [_; _; _]. split; [reflexivity|].
        repeat constructor; discriminate.
    + eexists [_; _]. split; [reflexivity|].
      repeat constructor; discriminate.
  - rewrite click_unfold. cbn zeta.
    destruct (truthy (userId s) || truthy (productId s)); [|reflexivity].
    destruct (http _); reflexivity.
  - rewrite click_unfold. cbn zeta.
    destruct (truthy (userId s) || truthy (productId s)); [|reflexivity].
    destruct (http _); reflexivity.
  - apply click_completes.
Qed.

End DemoPage.

(** C1 (as worded) fails: with neither identifier the demo page does not
    route to trending, it sends nothing. *)
Lemma neither_id_sends_nothing :
  ~ (forall (http : string -> Demo.Response) (s : Demo.State),
       Demo.requests (Demo.log (Demo.click http s))
       = [Samples.routed_as_worded (Demo.userId s) (Demo.productId s)]).
Proof.
  intros H. specialize (H Samples.server_down Demo.initial).
  vm_compute in H. discriminate H.
Qed.

Lemma failed_fetch_keeps_books_witness :
  Demo.error (Demo.state (Demo.click Samples.server_down Samples.showing))
    = Some "Failed to fetch recommendations."
  /\ Demo.books (Demo.state (Demo.click Samples.server_down Samples.showing))
     = [Samples.a_book].
Proof.
  destruct (failed_fetch_keeps_books Samples.server_down Samples.showing)
    as (He & Hb & _); [reflexivity | reflexivity |].
  split; [exact He | exact Hb].
Defined.

(** Three clicks on concrete forms. *)
Example click_with_both_ids :
  Demo.requests
    (Demo.log
       (Demo.click Samples.server_down
          {| Demo.userId := "7"; Demo.productId := "42"; Demo.books := [];
             Demo.loading := false; Demo.error := None |}))
  = ["api/hybrid-recommendations?user_id=7&product_id=42"].
Proof. reflexivity. Qed.

Example click_with_item_only :
  Demo.requests
    (Demo.log
       (Demo.click Samples.server_down
          {| Demo.userId := ""; Demo.productId := "42"; Demo.books := [];
             Demo.loading := false; Demo.error := None |}))
  = ["api/cbf-recommendations?product_id=42"].
Proof. reflexivity. Qed.

Example click_on_empty_form :
  Demo.log (Demo.click Samples.server_down Demo.initial)
  = [Demo.SetLoading true; Demo.SetError None;
     Demo.SetError (Some "Please provide at least a User ID or Book ID.");
     Demo.SetLoading false].
Proof. reflexivity. Qed.

Example click_answered :
  Demo.state
    (Demo.click (fun _ => Demo.Resolved [Samples.a_book]) Samples.showing)
  = {| Demo.userId := "7"; Demo.productId := ""; Demo.books := [Samples.a_book];
       Demo.loading := false; Demo.error := None |}.
Proof. reflexivity. Qed.

(** ** Sorting by insertion *)

Section Sorting.

Import Engine.

Context {A : Type} (before : A -> A -> bool).

Lemma place_perm (x : A) (l : list A) : place before x l ≡ₚ x :: l.
Proof.
  induction l as [|y l IH]; cbn; [done|].
  destruct (before x y); [done|].
  rewrite IH. apply Permutation_swap.
Qed.

Lemma sort_by_perm (l : list A) : sort_by before l ≡ₚ l.
Proof.
  induction l as [|x l IH]; cbn; [done|].
  rewrite place_perm. by rewrite IH.
Qed.

Lemma sort_by_length (l : list A) : length (sort_by before l) = length l.
Proof. by rewrite sort_by_perm. Qed.

Lemma sort_by_elem (x : A) (l : list A) : x ∈ sort_by before l <-> x ∈ l.
Proof. by rewrite sort_by_perm. Qed.

Hypothesis before_total : forall a b, before a b = false -> before b a = true.
Hypothesis before_trans :
  forall a b c, before a b = true -> before b c = true -> before a c = true.




End Sorting.

(** ** The ranking order *)

Section Ranking.

Import Engine.

Local Open Scope R_scope.

Variable key : Scored -> R.






Lemma rank_elem (K : nat) (l : list Scored) (c : Scored) :
  c ∈ rank key K l -> c ∈ l.
Proof.
  unfold rank. intros Hc. apply subseteq_take in Hc.
  by apply sort_by_elem in Hc.
Qed.

(** With a cap that covers the whole list, nothing is cut. *)
Lemma rank_all (K : nat) (l : list Scored) :
  (length l ≤ K)%nat -> rank key K l ≡ₚ l.
Proof.
  intros HK. unfold rank. rewrite take_ge.
  - apply sort_by_perm.
  - by rewrite sort_by_length.
Qed.

End Ranking.

Section Presenting.

Import Engine.

Local Open Scope R_scope.







End Presenting.

(** ** What the four operations return *)

Section Results.

Import Engine.

Local Open Scope R_scope.

Variable cfg : Config.
Variable s : Snapshot.





(** The query item is not among the CBF candidates. *)
Lemma cbf_scores_exclude_query (i : nat) (it : Item) :
  i ∉ sc_id <$> cbf_scores s i it.
Proof.
  intros Hi. apply list_elem_of_fmap in Hi as (c & -> & Hc).
  apply list_elem_of_fmap in Hc as ([j jt] & -> & He).
  apply list_elem_of_filter in He as [Hne _]. by apply Hne.
Qed.


Lemma presented_ids (t : bool) (key : Scored -> R) (K : nat)
    (l : list Scored) (i : nat) :
  i ∈ item_id <$> (present t <$> rank key K l) -> i ∈ sc_id <$> l.
Proof.
  intros Hi. apply list_elem_of_fmap in Hi as (x & -> & Hx).
  apply list_elem_of_fmap in Hx as (c & -> & Hc). cbn.
  apply list_elem_of_fmap_2. by eapply rank_elem.
Qed.



(** C7: for a known item the CBF result exists, is not a fallback, and
    never contains the query item; for an unknown item the operation
    signals NotFound. *)
Theorem cbf_excludes_query (i K : nat) :
  (forall it, catalog s !! i = Some it ->
     exists r, cbf_recommend cfg s i K = inr r
               /\ fallback r = false
               /\ i ∉ item_id <$> items r)
  /\ (catalog s !! i = None -> cbf_recommend cfg s i K = inl NotFound).
Proof.
  unfold cbf_recommend. split.
  - intros it ->. eexists. split; [reflexivity|]. cbn.
    split; [done|]. intros Hi. apply presented_ids in Hi.
    by apply cbf_scores_exclude_query in Hi.
  - by intros ->.
Qed.

End Results.

(** ** Similarity *)

Section Similarity.

Import Engine.

Local Open Scope R_scope.









Lemma sum_squares_nonneg (v : list R) :
  0 <= foldr (fun x acc => x * x + acc) 0 v.
Proof.
  induction v as [|x v IH]; cbn; [lra|].
  pose proof (Rle_0_sqr x) as Hx. unfold Rsqr in Hx. lra.
Qed.

Lemma cosine_twice (v : list R) :
  cosine (twice v) = if decide (norm v = 0) then 0 else 1.
Proof.
  unfold cosine, twice.
  assert (fst <$> ((fun x => (x, x)) <$> v) = v) as ->.
  { induction v as [|x v IH]; cbn; [done|]. by f_equal. }
  assert (snd <$> ((fun x => (x, x)) <$> v) = v) as ->.
  { induction v as [|x v IH]; cbn; [done|]. by f_equal. }
  assert (dot ((fun x => (x, x)) <$> v) = norm v * norm v) as ->.
  { unfold norm. rewrite sqrt_sqrt by apply sum_squares_nonneg.
    induction v as [|x v IH]; cbn; [done|].
    unfold dot in IH. by rewrite IH. }
  repeat case_decide; try done; try tauto.
  field. tauto.
Qed.


Lemma features_self (s : Snapshot) (a : Item) :
  features s a a = twice (item_vector s a).
Proof.
  unfold features, item_vector, twice.
  induction (vocabulary s) as [|t l IH]; cbn; [done|]. by f_equal.
Qed.

(** Two items with the same content tokens have similarity 1, unless they
    have no token at all. *)
Lemma same_tokens_similar (s : Snapshot) (a b : Item) :
  item_tokens a = item_tokens b ->
  item_sim s a b = if decide (norm (item_vector s a) = 0) then 0 else 1.
Proof.
  intros Hab. unfold item_sim.
  assert (features s a b = features s a a) as ->.
  { unfold features, term_count. by rewrite Hab. }
  rewrite features_self. apply cosine_twice.
Qed.


End Similarity.

(** ** Cold start *)

Section ColdStart.

Import Engine.

Local Open Scope R_scope.

Lemma omap_none {A B} (f : A -> option B) (l : list A) :
  (forall x, x ∈ l -> f x = None) -> omap f l = [].
Proof.
  induction l as [|x l IH]; intros H; cbn; [done|].
  rewrite (H x) by left. apply IH. intros y Hy. apply H. by right.
Qed.

Lemma no_similar_users (cfg : Config) (s : Snapshot) (u : nat) :
  (forall n, n ∈ matrix_users s -> n ≠ u -> ~ 0 < user_sim cfg s u n) ->
  neighbours cfg s u = [].
Proof.
  intros H. unfold neighbours, similar_users.
  rewrite omap_none; [by destruct (max_neighbours cfg)|].
  intros n Hn. apply list_elem_of_filter in Hn as [Hne Hn].
  unfold user_similarity.
  destruct (bool_decide _); [done|].
  destruct (_ && _); [|done].
  rewrite decide_False; [done|]. by apply H.
Qed.

(** A cold start is answered with the output of the trending ranker, with
    the fallback flag set. *)
Lemma cold_start_fallback (cfg : Config) (s : Snapshot) (u K : nat) :
  known_user s u = false
  \/ (forall n, n ∈ matrix_users s -> n ≠ u -> ~ 0 < user_sim cfg s u n) ->
  cf_recommend cfg s u K
  = inr {| items := result_items (trending cfg s K);
           fallback := true; partial := false |}.
Proof.
  intros Hcold. unfold cf_recommend.
  assert (cold_start cfg s u = true) as ->; [|done].
  unfold cold_start. destruct Hcold as [-> | Hnone]; [done|].
  rewrite (no_similar_users _ _ _ Hnone).
  rewrite bool_decide_eq_true_2 by done. apply orb_true_r.
Qed.

End ColdStart.

(** ** The hybrid combiner *)

Section Hybrid.

Import Engine.

Local Open Scope R_scope.














End Hybrid.

Section HybridExtremes.

Import Engine.

Local Open Scope R_scope.


End HybridExtremes.

(** ** Worked snapshots *)

Section Worked.

Import Engine Samples.

Local Open Scope R_scope.

(** Evaluate the parts of a goal that only read the data of snapshot [s]. *)
Ltac data s :=
  repeat match goal with
  | |- context [matrix s !! ?k] =>
      let v := eval vm_compute in (matrix s !! k) in
      change (matrix s !! k) with v
  | |- context [catalog s !! ?k] =>
      let v := eval vm_compute in (catalog s !! k) in
      change (catalog s !! k) with v
  | |- context [map_to_list (catalog s)] =>
      let v := eval vm_compute in (map_to_list (catalog s)) in
      change (map_to_list (catalog s)) with v
  | |- context [matrix_users s] =>
      let v := eval vm_compute in (matrix_users s) in
      change (matrix_users s) with v
  | |- context [matrix_items s] =>
      let v := eval vm_compute in (matrix_items s) in
      change (matrix_items s) with v
  | |- context [known_user s ?k] =>
      let v := eval vm_compute in (known_user s k) in
      change (known_user s k) with v
  | |- context [size (matrix s)] =>
      let v := eval vm_compute in (size (matrix s)) in
      change (size (matrix s)) with v
  | |- context [@filter _ _ list_filter ?P ?d ?l] =>
      let v := eval vm_compute in (@filter _ _ list_filter P d l) in
      change (@filter _ _ list_filter P d l) with v
  | |- context [bool_decide (?j ∈ ?l)] =>
      let v := eval vm_compute in (bool_decide (j ∈ l)) in
      change (bool_decide (j ∈ l)) with v
  end.

Ltac settle := unfold by_rating, by_reviews, Q2R; cbn; lra.

(** Decide the comparisons of scores and keys that a ranking makes. *)
Ltac compare :=
  repeat match goal with
  | |- context [decide (?a < ?b)] =>
      first [ rewrite (decide_True (P := a < b)) by settle
            | rewrite (decide_False (P := a < b)) by settle ]
  | |- context [bool_decide (?a ≤ ?b)%nat] =>
      let v := eval vm_compute in (bool_decide (a ≤ b)%nat) in
      change (bool_decide (a ≤ b)%nat) with v
  end.


(** *** The reading club *)

Lemma club_co_rated : co_rated club 1 2 = twice [Q2R 3; Q2R 5].
Proof.
  unfold co_rated. data club. cbn [omap list_omap]. data club. reflexivity.
Qed.

Lemma club_sim : user_sim default_config club 1 2 = 1.
Proof.
  unfold user_sim. rewrite club_co_rated.
  change (cosine (twice [Q2R 3; Q2R 5]) = 1). rewrite cosine_twice.
  rewrite decide_False; [done|].
  unfold norm. cbn [foldr]. intros H.
  apply sqrt_eq_0 in H; unfold Q2R in *; cbn in *; lra.
Qed.

Lemma club_similarity : user_similarity default_config club 1 2 = inr 1.
Proof. unfold user_similarity. data club. cbn. by rewrite club_sim. Qed.

Lemma club_neighbours : neighbours default_config club 1 = [(2%nat, 1)].
Proof.
  unfold neighbours, similar_users. data club.
  cbn [omap list_omap]. rewrite club_similarity. compare. reflexivity.
Qed.

Lemma club_predicted (i : nat) :
  matrix club !! (2%nat, i) = Some 4%Q ->
  predicted club [(2%nat, 1)] i = Some 4.
Proof.
  intros Hi. unfold predicted, contributions.
  cbn [omap list_omap fst snd]. rewrite Hi.
  cbn [fmap option_fmap option_map dot foldr fst snd]. f_equal.
  rewrite Rabs_R1. unfold Q2R; cbn. lra.
Qed.

Lemma club_cf_scores :
  cf_scores default_config club 1 =
    [ {| sc_id := 4; sc_item := persuasion; sc_score := 4 |};
      {| sc_id := 3; sc_item := emma; sc_score := 4 |} ].
Proof.
  unfold cf_scores. rewrite club_neighbours. data club.
  cbn [omap list_omap fst snd]. data club.
  rewrite !club_predicted by reflexivity. reflexivity.
Qed.

Lemma club_warm : cold_start default_config club 1 = false.
Proof.
  unfold cold_start. data club. rewrite club_neighbours. reflexivity.
Qed.



Lemma cbf_ids (s : Snapshot) (i : nat) (it : Item) :
  sc_id <$> cbf_scores s i it
  = fst <$> filter (fun e => fst e ≠ i) (map_to_list (catalog s)).
Proof. unfold cbf_scores. by rewrite <- list_fmap_compose. Qed.


(** With all the weight on CBF, the hybrid result for user 1 and item 3
    has four items, the query item among them as a CF candidate; the CBF
    result for item 3 has three. *)
Lemma club_hybrid_cbf_only :
  length (result_items (hybrid_recommend default_config club 1 3 10 0)) = 4%nat
  /\ length (result_items (cbf_recommend default_config club 3 10)) = 3%nat.
Proof.
  split.
  - unfold hybrid_recommend. rewrite club_warm.
    change (catalog club !! 3%nat) with (Some emma). cbv beta iota.
    cbn [result_items items]. rewrite length_fmap.
    unfold rank. rewrite length_take, sort_by_length.
    unfold hybrid_scores. data club. cbn [omap list_omap fst snd].
    unfold candidate. rewrite cbf_ids, club_cf_scores. data club.
    cbn [fmap list_fmap sc_id fst]. data club. cbn [orb]. reflexivity.
  - unfold cbf_recommend.
    change (catalog club !! 3%nat) with (Some emma). cbv beta iota.
    cbn [result_items items]. rewrite length_fmap.
    unfold rank. rewrite length_take, sort_by_length.
    unfold cbf_scores. rewrite length_fmap. data club. reflexivity.
Qed.




Lemma cbf_excludes_query_witness :
  (exists r, cbf_recommend default_config club 1 10 = inr r
             /\ fallback r = false
             /\ 1%nat ∉ item_id <$> items r)
  /\ cbf_recommend default_config club 9 10 = inl NotFound.
Proof.
  split.
  - destruct (cbf_excludes_query default_config club 1 10) as [H _].
    exact (H dune eq_refl).
  - destruct (cbf_excludes_query default_config club 9 10) as [_ H].
    exact (H eq_refl).
Defined.

(** *** The single rating *)


(** *** The cold-start example *)

Lemma sparse_overlap (s : Snapshot) :
  matrix s = sparse_matrix ->
  matrix_users s = [2; 1]%nat /\ length (co_rated s 1 2) = 1%nat.
Proof.
  intros Hm. split.
  - unfold matrix_users. rewrite Hm. by vm_compute.
  - unfold co_rated, matrix_items. rewrite Hm.
    change (remove_dups _) with [3; 2; 1]%nat.
    cbn [omap list_omap].
    repeat match goal with
    | |- context [sparse_matrix !! ?k] =>
        let v := eval vm_compute in (sparse_matrix !! k) in
        change (sparse_matrix !! k) with v
    end.
    reflexivity.
Qed.

(** C6: for a user that is unknown, or that has no other user with
    similarity above 0, [cf_recommend] signals no error: it returns the
    output of the trending ranker with the fallback flag set. In
    particular, on the rating matrix
    {(u1,i1):5, (u1,i2):3, (u2,i1):4, (u2,i3):5} with minimum overlap 2
    the two users share one item, their similarity is 0, and
    [cf_recommend] for u1 returns the trending fallback. *)
Theorem cold_user_falls_back :
  (forall cfg s u K,
     known_user s u = false
     \/ (forall n, n ∈ matrix_users s -> n ≠ u -> ~ 0 < user_sim cfg s u n) ->
     cf_recommend cfg s u K
     = inr {| items := result_items (trending cfg s K);
              fallback := true; partial := false |})
  /\ (forall cfg s K,
        matrix s = sparse_matrix -> min_overlap cfg = 2%nat ->
        length (co_rated s 1 2) = 1%nat
        /\ user_sim cfg s 1 2 = 0
        /\ cf_recommend cfg s 1 K
           = inr {| items := result_items (trending cfg s K);
                    fallback := true; partial := false |}).
Proof.
  split; [apply cold_start_fallback|].
  intros cfg s K Hm Hcfg.
  destruct (sparse_overlap s Hm) as [Hu Hl].
  assert (user_sim cfg s 1 2 = 0) as Hsim.
  { unfold user_sim. cbn zeta. by rewrite Hl, Hcfg. }
  split; [exact Hl|]. split; [exact Hsim|].
  apply cold_start_fallback. right. intros n Hn Hne.
  rewrite Hu in Hn.
  apply elem_of_cons in Hn as [-> | Hn]; [rewrite Hsim; lra|].
  apply elem_of_cons in Hn as [-> | Hn]; [done|].
  by apply elem_of_nil in Hn.
Qed.

Lemma cold_user_falls_back_witness :
  cf_recommend default_config sparse 7 10
  = inr {| items := result_items (trending default_config sparse 10);
           fallback := true; partial := false |}.
Proof.
  destruct cold_user_falls_back as [H _].
  apply H. left. by vm_compute.
Defined.

End Worked.

(** ** The demo page as the user drives it *)

Section DemoSessions.

Import Demo DemoUI.

Lemma begin_click_unfold (w : World) :
  begin_click w =
    let u := userId (state w) in
    let p := productId (state w) in
    if truthy u || truthy p then
      ({| state := {| userId := u; productId := p; books := books (state w);
                      loading := true; error := None |};
          log := log w ++ [SetLoading true; SetError None;
                           AxiosGet (endpoint u p)] |},
       Some (endpoint u p))
    else
      ({| state := {| userId := u; productId := p; books := books (state w);
                      loading := false;
                      error := Some "Please provide at least a User ID or Book ID." |};
          log := log w ++ [SetLoading true; SetError None;
                           SetError (Some "Please provide at least a User ID or Book ID.");
                           SetLoading false] |},
       None).
Proof.
  destruct w as [[u p bs l e] lg].
  unfold begin_click, exec, bind, setLoading, setError, emit. cbn.
  destruct u as [|c u]; destruct p as [|d p]; cbn;
    by rewrite <- !app_assoc.
Qed.

Lemma finish_click_unfold (r : Response) (w : World) :
  finish_click r w =
    match r with
    | Resolved data =>
        {| state := {| userId := userId (state w);
                       productId := productId (state w); books := data;
                       loading := false; error := error (state w) |};
           log := log w ++ [SetBooks data; SetLoading false] |}
    | Rejected =>
        {| state := {| userId := userId (state w);
                       productId := productId (state w);
                       books := books (state w); loading := false;
                       error := Some "Failed to fetch recommendations." |};
           log := log w ++ [SetError (Some "Failed to fetch recommendations.");
                            SetLoading false] |}
    end.
Proof.
  destruct w as [[u p bs l e] lg], r;
    unfold finish_click, exec, bind, setLoading, setError, setBooks, emit;
    cbn; by rewrite <- !app_assoc.
Qed.

(** A press whose answer arrives before anything else happens is
    [fetchRecommendations] run from its first statement to its last. *)
Lemma click_in_two_halves (http : string -> Response) (s : State) :
  click http s =
    let r := begin_click {| state := s; log := [] |} in
    match snd r with
    | Some url => finish_click (http url) (fst r)
    | None => fst r
    end.
Proof.
  rewrite click_unfold, begin_click_unfold. cbn zeta. cbn [state log].
  destruct (truthy (userId s) || truthy (productId s)); cbn [fst snd];
    [|done].
  rewrite finish_click_unfold. by destruct (http _).
Qed.

Lemma step_keeps_indicator (p : Page) (t : Step) :
  (loading (state (world p)) = true -> in_flight p ≠ []) ->
  loading (state (world (step p t))) = true -> in_flight (step p t) ≠ [].
Proof.
  intros Hp. destruct t as [[v|v|]|k r]; cbn [step].
  - exact Hp.
  - exact Hp.
  - rewrite begin_click_unfold. cbn zeta.
    destruct (truthy _ || truthy _); cbn; [|done].
    intros _ Hnil. by apply app_eq_nil in Hnil as [_ ?].
  - destruct (in_flight p !! k); [|exact Hp].
    rewrite finish_click_unfold. by destruct r.
Qed.

(** X1: whatever the user does and in whatever order the answers arrive,
    the page says it is loading only while a request is in flight. *)
Theorem indicator_means_request (p : Page) (ts : list Step) :
  (loading (state (world p)) = true -> in_flight p ≠ []) ->
  loading (state (world (run p ts))) = true -> in_flight (run p ts) ≠ [].
Proof.
  unfold run. revert p.
  induction ts as [|t ts IH]; intros p Hp; cbn [foldl]; [exact Hp|].
  apply IH. by apply step_keeps_indicator.
Qed.

(** X2: the converse does not hold: the answer to one request takes the
    loading indicator away although other requests are still in flight. *)
Theorem answer_hides_other_requests (p : Page) (k : nat) (r : Response) :
  is_Some (in_flight p !! k) -> (2 ≤ length (in_flight p))%nat ->
  loading (state (world (step p (Answer k r)))) = false
  /\ in_flight (step p (Answer k r)) ≠ [].
Proof.
  intros [url Hk] Hlen. cbn [step]. rewrite Hk. cbn [world in_flight].
  split.
  - rewrite finish_click_unfold. by destruct r.
  - intros Hnil. apply (f_equal length) in Hnil.
    rewrite length_delete in Hnil by eauto. cbn in Hnil. lia.
Qed.

Lemma step_keeps_books (p : Page) (t : Step) :
  brings_books t = false ->
  books (state (world (step p t))) = books (state (world p)).
Proof.
  destruct t as [[v|v|]|k r]; cbn [step]; intros Ht; try done.
  - rewrite begin_click_unfold. cbn zeta.
    by destruct (truthy _ || truthy _).
  - destruct (in_flight p !! k); [|done].
    rewrite finish_click_unfold. by destruct r.
Qed.

Lemma run_keeps_books (p : Page) (ts : list Step) :
  forallb (fun t => negb (brings_books t)) ts = true ->
  books (state (world (run p ts))) = books (state (world p)).
Proof.
  unfold run. revert p.
  induction ts as [|t ts IH]; intros p Hts; cbn [foldl]; [done|].
  cbn in Hts. apply andb_true_iff in Hts as [Ht Hts].
  rewrite IH by done. apply step_keeps_books.
  by apply negb_true_iff in Ht.
Qed.

(** X3: the books shown are those of the resolved answer that arrived
    last, whichever request it answers: typing, pressing the button and
    rejected answers leave the list as it is. *)
Theorem last_answer_wins (p : Page) (k : nat) (data : list Book)
    (later : list Step) :
  is_Some (in_flight p !! k) ->
  forallb (fun t => negb (brings_books t)) later = true ->
  books (state (world (run p (Answer k (Resolved data) :: later)))) = data.
Proof.
  intros [url Hk] Hlater.
  change (run p (Answer k (Resolved data) :: later))
    with (run (step p (Answer k (Resolved data))) later).
  rewrite run_keeps_books by done.
  cbn [step]. rewrite Hk. cbn [world].
  by rewrite finish_click_unfold.
Qed.

Lemma requests_app (l1 l2 : list Event) :
  requests (l1 ++ l2) = (requests l1 ++ requests l2)%list.
Proof. apply omap_app. Qed.

Lemma step_requests (p : Page) (t : Step) :
  requests (log (world (step p t))) =
    match t with
    | User PressButton =>
        let s := state (world p) in
        (requests (log (world p))
         ++ (if truthy (userId s) || truthy (productId s)
             then [endpoint (userId s) (productId s)] else []))%list
    | _ => requests (log (world p))
    end.
Proof.
  destruct t as [[v|v|]|k r]; cbn [step world log]; try done.
  - rewrite begin_click_unfold. cbn zeta.
    destruct (truthy _ || truthy _); cbn [fst log world];
      rewrite requests_app; cbn; [done|by rewrite app_nil_r].
  - destruct (in_flight p !! k); [|done]. cbn [world].
    rewrite finish_click_unfold.
    destruct r; cbn [log]; rewrite requests_app; cbn; by rewrite app_nil_r.
Qed.

Lemma run_requests_named (p : Page) (ts : list Step) :
  Forall names_an_id (requests (log (world p))) ->
  Forall names_an_id (requests (log (world (run p ts)))).
Proof.
  unfold run. revert p.
  induction ts as [|t ts IH]; intros p Hp; cbn [foldl]; [done|].
  apply IH. rewrite step_requests.
  destruct t as [[v|v|]|k r]; try done. cbn zeta.
  apply Forall_app. split; [done|].
  destruct (truthy _ || truthy _) eqn:Hid; [|constructor].
  constructor; [|constructor]. by eexists _, _.
Qed.

(** X4: only a press of the button sends a request, and it sends one
    exactly when an identifier is typed in; so every request that a page
    ever sends names at least one identifier. *)
Theorem requests_name_an_id (p : Page) (t : Step) (ts : list Step) :
  requests (log (world (step p t))) =
    match t with
    | User PressButton =>
        let s := state (world p) in
        (requests (log (world p))
         ++ (if truthy (userId s) || truthy (productId s)
             then [endpoint (userId s) (productId s)] else []))%list
    | _ => requests (log (world p))
    end
  /\ Forall names_an_id (requests (log (world (run opened ts)))).
Proof.
  split; [apply step_requests|]. apply run_requests_named. constructor.
Qed.

(** X5: pressing again changes nothing when the server answers as before:
    a second click from the state the first one left gives the same state
    and makes the same calls. *)
Theorem click_twice (http : string -> Response) (s : State) :
  click http (state (click http s)) = click http s.
Proof.
  rewrite (click_unfold http s). cbn zeta.
  destruct (truthy (userId s) || truthy (productId s)) eqn:Hid.
  - destruct (http (endpoint (userId s) (productId s))) eqn:Hr;
      rewrite click_unfold; cbn; by rewrite Hid, Hr.
  - rewrite click_unfold. cbn. by rewrite Hid.
Qed.

End DemoSessions.

(** ** The request strings *)

Section Endpoints.

Import Demo DemoUI.

Lemma append_same_start (pre a b : string) : pre +:+ a = pre +:+ b -> a = b.
Proof.
  induction pre as [|c pre IH]; cbn; [done|].
  intros [= H]. by apply IH.
Qed.

Lemma append_until_amp (u u' r r' : string) :
  free_of "&" u = true -> free_of "&" u' = true ->
  u +:+ String "&" r = u' +:+ String "&" r' -> u = u' /\ r = r'.
Proof.
  revert u'. induction u as [|c u IH]; intros [|c' u'] Hu Hu' H;
    cbn [String.append] in H; cbn [free_of] in Hu, Hu'.
  - by injection H.
  - injection H as <- _. by rewrite Ascii.eqb_refl in Hu'.
  - injection H as -> _. by rewrite Ascii.eqb_refl in Hu.
  - injection H as -> H.
    apply andb_true_iff in Hu as [_ Hu]. apply andb_true_iff in Hu' as [_ Hu'].
    destruct (IH u' Hu Hu' H) as [-> ->]. done.
Qed.

(** X6: the request tells the identifiers apart as long as no user
    identifier contains an ampersand: two forms with the same request have
    the same user and item identifiers, and the three endpoints never
    coincide. The identifiers are copied into the request as they are, so
    with an ampersand two different forms can send the same request. *)
Theorem endpoint_injective :
  (forall u p u' p',
     free_of "&" u = true -> free_of "&" u' = true ->
     endpoint u p = endpoint u' p' -> u = u' /\ p = p')
  /\ endpoint "1&product_id=2" "3" = endpoint "1" "2&product_id=3".
Proof.
  split; [|reflexivity].
  intros u p u' p' Hu Hu' H. unfold endpoint in H.
  destruct u as [|c u]; destruct p as [|d p];
    destruct u' as [|c' u']; destruct p' as [|d' p'];
    cbn [truthy andb] in H; try (cbn in H; discriminate H);
    try (apply append_same_start in H; first [done | by rewrite H]).
  apply append_same_start in H.
  change (String c u +:+ String "&" ("product_id=" +:+ String d p)
          = String c' u' +:+ String "&" ("product_id=" +:+ String d' p'))
    in H.
  apply append_until_amp in H as [-> H]; [|done..].
  apply append_same_start in H. by rewrite H.
Qed.

End Endpoints.

(** ** What the demo page shows *)

Section DemoView.

Import Demo DemoUI.

Lemma cards_of_cards (bs : list Book) :
  cards ((fun b => Card (product_id b) b) <$> bs) = bs
  /\ alerts ((fun b => Card (product_id b) b) <$> bs) = []
  /\ Para None "Loading..." ∉ (fun b => Card (product_id b) b) <$> bs.
Proof.
  induction bs as [|b bs (IHc & IHa & IHl)]; cbn.
  - split; [done|]. split; [done|]. apply not_elem_of_nil.
  - split; [by rewrite <- IHc at 2|]. split; [done|].
    intros H. apply elem_of_cons in H as [H|H]; [done|by apply IHl].
Qed.

Lemma render_cards (s : State) : cards (render s) = books s.
Proof.
  destruct (cards_of_cards (books s)) as [Hc _].
  unfold render, cards in *. rewrite !omap_app, Hc.
  destruct (loading s), (error s) as [e|]; cbn; try done;
    by destruct (truthy e).
Qed.

Lemma render_alerts (s : State) :
  alerts (render s) =
    match error s with
    | Some e => if truthy e then [e] else []
    | None => []
    end.
Proof.
  destruct (cards_of_cards (books s)) as (_ & Ha & _).
  unfold render, alerts in *. rewrite !omap_app, Ha.
  destruct (loading s), (error s) as [e|]; cbn; try done;
    destruct (truthy e); cbn; by rewrite ?app_nil_r.
Qed.

Lemma render_loading (s : State) :
  shows_loading (render s) <-> loading s = true.
Proof.
  unfold shows_loading, render.
  destruct (cards_of_cards (books s)) as (_ & _ & Hc).
  rewrite !elem_of_app, !elem_of_cons.
  split.
  - intros [H|[H|[H|[H|H]]]].
    + destruct H as [H|[H|[H|[H|H]]]]; try done. by apply elem_of_nil in H.
    + destruct (loading s); [done|]. by apply elem_of_nil in H.
    + destruct (error s) as [e|]; [|by apply elem_of_nil in H].
      destruct (truthy e); [|by apply elem_of_nil in H].
      apply elem_of_cons in H as [H|H]; [done|by apply elem_of_nil in H].
    + destruct H as [H|H]; [done|by apply elem_of_nil in H].
    + done.
  - intros ->. right. left. by left.
Qed.

(** X7: while a request is awaited the page shows the loading line, no
    message in red, and the cards it showed before the press. *)
Theorem page_while_waiting (p : Page) :
  truthy (userId (state (world p))) || truthy (productId (state (world p)))
  = true ->
  let v := render (state (world (step p (User PressButton)))) in
  shows_loading v /\ alerts v = [] /\ cards v = books (state (world p)).
Proof.
  intros Hid v. subst v. cbn [step world].
  rewrite render_loading, render_alerts, render_cards.
  rewrite begin_click_unfold. cbn zeta. by rewrite Hid.
Qed.

(** X8: after a click has run to its end the loading line is gone; the
    page shows one message in red exactly when the form was empty or the
    request was rejected, and the cards of the answer when there is one,
    the earlier cards otherwise. *)
Theorem page_after_click (http : string -> Response) (s : State) :
  let v := render (state (click http s)) in
  ~ shows_loading v
  /\ alerts v =
       (if truthy (userId s) || truthy (productId s) then
          match http (endpoint (userId s) (productId s)) with
          | Resolved _ => []
          | Rejected => ["Failed to fetch recommendations."]
          end
        else ["Please provide at least a User ID or Book ID."])
  /\ cards v =
       (if truthy (userId s) || truthy (productId s) then
          match http (endpoint (userId s) (productId s)) with
          | Resolved data => data
          | Rejected => books s
          end
        else books s).
Proof.
  intros v. subst v.
  rewrite render_loading, render_alerts, render_cards, click_unfold.
  cbn zeta. destruct (truthy (userId s) || truthy (productId s)).
  - by destruct (http _).
  - done.
Qed.

End DemoView.

(** ** Scenes *)

Section ScenesChecked.

Import Demo DemoUI Scenes.

Lemma indicator_means_request_witness : in_flight waiting ≠ [].
Proof.
  apply (indicator_means_request opened
           [User (TypeUser "7"); User PressButton]).
  - discriminate.
  - reflexivity.
Defined.

Lemma answer_hides_other_requests_witness :
  loading (state (world newer_answered)) = false
  /\ in_flight newer_answered ≠ [].
Proof.
  apply (answer_hides_other_requests two_in_flight 1
           (Resolved [other_book])).
  - by eexists.
  - cbn. lia.
Defined.

(** The answer for user 7 arrives after the one for user 8: the page shows
    the books for user 7 under a form that says user 8. *)
Lemma last_answer_wins_witness :
  books (state (world (run newer_answered
                         [Answer 0 (Resolved [Samples.a_book]);
                          User (TypeProduct "3")])))
  = [Samples.a_book].
Proof.
  apply (last_answer_wins newer_answered 0 [Samples.a_book]
           [User (TypeProduct "3")]).
  - by eexists.
  - reflexivity.
Defined.

Lemma page_while_waiting_witness :
  shows_loading (render (state (world waiting)))
  /\ alerts (render (state (world waiting))) = []
  /\ cards (render (state (world waiting))) = [].
Proof.
  apply (page_while_waiting (step opened (User (TypeUser "7")))).
  reflexivity.
Defined.

Lemma endpoint_injective_witness :
  "7" = "7" /\ "42" = "42".
Proof.
  destruct endpoint_injective as [H _].
  apply (H "7" "42" "7" "42"); reflexivity.
Defined.

End ScenesChecked.

(** ** What the landing page shows *)

Section LandingView.

Import IndexPage LandingUI.

Lemma landing_cards (books : list TrendingBook) :
  cards (render books)
  = (fun book => (product_id book, BookCard book)) <$> books.
Proof.
  unfold render, cards. cbn.
  induction books as [|b bs IH]; cbn; [done|]. by f_equal.
Qed.

(** X10: once the effect of the landing page has run, the page shows one
    card per book of the answer, in the order of the answer, or the cards
    it had when the fetch was rejected, which then only reaches the
    console. A card shows the cover, the title, the authors and the
    average rating: two books get the same card exactly when they agree on
    these, whatever their review counts and trending scores. *)
Theorem landing_after_mount :
  (forall (srv : string -> Response) (books : list TrendingBook),
     cards (render (fst (mount_effect srv books)))
     = (fun book => (product_id book, BookCard book))
         <$> match srv "/api/trending-books" with
             | Resolved data => data
             | Rejected => books
             end)
  /\ (forall srv books,
        srv "/api/trending-books" = Rejected ->
        snd (mount_effect srv books) = [Fetch "/api/trending-books"; ConsoleError])
  /\ (forall a b : TrendingBook,
        BookCard a = BookCard b
        <-> cover_link a = cover_link b /\ title a = title b
            /\ authors a = authors b /\ avg_rating a = avg_rating b).
Proof.
  split; [|split].
  - intros srv books. rewrite landing_cards. unfold mount_effect.
    by destruct (srv _).
  - intros srv books Hr. unfold mount_effect. by rewrite Hr.
  - intros a b. unfold BookCard. split.
    + intros [= Hc Ht Ha Hs]. by repeat split.
    + intros (-> & -> & -> & ->). done.
Qed.

Lemma landing_after_mount_witness :
  snd (mount_effect (fun _ => Rejected) [])
  = [Fetch "/api/trending-books"; ConsoleError].
Proof.
  destruct landing_after_mount as (_ & H & _).
  by apply H.
Defined.

End LandingView.
